(** * Named entity recognition of the John Henslow collection

    A shallow embedding of [bin/named_entity_recognition.py]: a linear script
    that reads one TEI letter, extracts the text of its transcription
    [<div>], replaces the ampersand shorthand, hands the text to a
    pre-trained spaCy pipeline and exports the recognised entities as JSON
    and as an HTML page.

    Python strings are sequences of Unicode code points; they are modelled
    as lists of code points so that [str.replace] and the JSON encoder work
    on the same characters as the script does. *)

From Stdlib Require Import String Ascii NArith ZArith List Lia Bool DecimalZ.
From stdpp Require Import base list gmap.
Import ListNotations.

Local Open Scope N_scope.
Local Open Scope list_scope.

(** ** Strings *)

Module Str.

(** A character is a code point. *)
Abbreviation char := N.

(** A Python [str]. *)
Abbreviation str := (list char).

(** A string literal of the script. *)
Definition lit (s : string) : str :=
  map N_of_ascii (list_ascii_of_string s).

(** [s.startswith(p)]. *)
Fixpoint starts_with (p s : str) : bool :=
  match p, s with
  | [], _ => true
  | _ :: _, [] => false
  | a :: p', b :: s' => (a =? b) && starts_with p' s'
  end.

(** [p in s]: some position of [s] starts an occurrence of [p]. *)
Fixpoint contains (p s : str) : bool :=
  starts_with p s ||
  match s with
  | [] => false
  | _ :: t => contains p t
  end.

(** The left-to-right scan of [str.replace] for a non-empty [old]:
    at an occurrence of [old] the replacement is emitted and the
    characters of the occurrence are skipped ([skip] counts the ones
    still to drop), so occurrences are found without overlap; any other
    character is copied. *)
Fixpoint replace_scan (old new : str) (skip : nat) (s : str) : str :=
  match s with
  | [] => []
  | c :: t =>
      match skip with
      | S k => replace_scan old new k t
      | O =>
          if starts_with old s
          then new ++ replace_scan old new (length old - 1) t
          else c :: replace_scan old new 0 t
      end
  end.

(** [s.replace(old, new)].  With an empty [old] Python inserts [new]
    before every character and at the end. *)
Definition replace (s old new : str) : str :=
  match old with
  | [] => new ++ flat_map (fun c => c :: new) s
  | _ :: _ => replace_scan old new 0 s
  end.

(** [sep.join(parts)]. *)
Fixpoint join (sep : str) (parts : list str) : str :=
  match parts with
  | [] => []
  | [p] => p
  | p :: ps => p ++ sep ++ join sep ps
  end.

End Str.

Import Str.

(** ** Cleaning the transcription *)

Definition amp : char := 38.
Definition space : char := 32.

(** [transcription = transcription.replace("& ", "and ")] *)
Definition normalize (transcription : str) : str :=
  replace transcription (lit "& ") (lit "and ").

(** The reference substitution, stated position by position: a position
    that starts an occurrence of ["& "] yields ["and "], the position
    covered by the second character of an occurrence yields nothing, and
    every other position yields its own character. *)
Definition occurs_at (p s : str) (i : nat) : bool :=
  starts_with p (drop i s).

Definition emit_at (s : str) (i : nat) : str :=
  if occurs_at (lit "& ") s i then lit "and "
  else if (0 <? i)%nat && occurs_at (lit "& ") s (i - 1) then []
  else match s !! i with
       | Some c => [c]
       | None => []
       end.

Definition substitute_all_ref (s : str) : str :=
  flat_map (emit_at s) (seq 0 (length s)).

(** The number of positions of [s] at which an occurrence of [p]
    starts. *)
Fixpoint occurrences (p s : str) : nat :=
  match s with
  | [] => 0
  | _ :: t => (if starts_with p s then 1 else 0) + occurrences p t
  end.

(** ** The parsed letter *)

Module Soup.

(** What Beautiful Soup builds from the XML: character data, nodes that
    are not part of the text (comments, processing instructions,
    declarations), and elements with their attribute dictionary and
    their children in document order. *)
#[local] Unset Elimination Schemes.
Inductive node : Type :=
| NavigableString (s : str)
| Comment (s : str)
| Tag (name : str) (attrs : gmap str str) (contents : list node).
#[local] Set Elimination Schemes.

(** [tag.descendants]: every node below [tag], in document order. *)
Fixpoint descendants (n : node) : list node :=
  match n with
  | Tag _ _ contents => List.flat_map (fun c => c :: descendants c) contents
  | _ => []
  end.

(** The filter built from the keyword argument [k=v]: only an element
    can pass, and its attribute [k] has to be exactly [v]. *)
Definition has_attr (k v : str) (n : node) : bool :=
  match n with
  | Tag _ attrs _ => bool_decide (attrs !! k = Some v)
  | _ => false
  end.

(** [soup.find_all(k=v)]: the matching descendants, in document order. *)
Definition find_all (k v : str) (soup : node) : list node :=
  List.filter (has_attr k v) (descendants soup).

(** [soup.find(k=v)]: the first matching descendant, or [None]. *)
Definition find (k v : str) (soup : node) : option node :=
  List.find (has_attr k v) (descendants soup).

(** The strings that make up the text of an element. *)
Definition string_of (n : node) : option str :=
  match n with
  | NavigableString s => Some s
  | _ => None
  end.

(** [tag.text]: the strings among the descendants, joined in document
    order. *)
Definition text (n : node) : str :=
  concat (omap string_of (descendants n)).

(** The text content of a subtree, by recursion on the tree: the
    character data of the node and of every nested element, in document
    order. *)
Fixpoint text_content (n : node) : str :=
  match n with
  | NavigableString s => s
  | Comment _ => []
  | Tag _ _ contents => concat (map text_content contents)
  end.

End Soup.

(** ** Exceptions *)

Inductive exn : Type :=
| FileNotFoundError
| AttributeError.

Inductive outcome (A : Type) : Type :=
| Return (a : A)
| Raise (e : exn).

Arguments Return {A} a.
Arguments Raise {A} e.

(** [transcription = letter.find(type="transcription").text]: reading
    [.text] from the [None] of an unsuccessful search raises. *)
Definition extract_transcription (letter : Soup.node) : outcome str :=
  match Soup.find (lit "type") (lit "transcription") letter with
  | Some tag => Return (Soup.text tag)
  | None => Raise AttributeError
  end.

(** ** The annotated document *)

(** An entity of [document.ents]: character offsets into the text and a
    label. *)
Record Span : Type := {
  start_char : Z;
  end_char : Z;
  label_ : str
}.

(** A spaCy [Doc], as far as the script looks at it. *)
Record Doc : Type := {
  doc_text : str;
  ents : list Span;
  user_data : gmap str str
}.

(** [text[a:b]] for offsets that are not negative. *)
Definition slice (text : str) (a b : Z) : str :=
  drop (Z.to_nat a) (take (Z.to_nat b) text).

(** [entity.text] *)
Definition span_text (document : Doc) (entity : Span) : str :=
  slice (doc_text document) (start_char entity) (end_char entity).

(** The spans are in the order of their start offsets. *)
Fixpoint ordered_by_start (spans : list Span) : Prop :=
  match spans with
  | [] => True
  | a :: rest =>
      match rest with
      | [] => True
      | b :: _ => (start_char a ≤ start_char b)%Z
      end ∧ ordered_by_start rest
  end.

(** ** JSON values and dictionaries *)

Module Json.

(** The Python values that [to_json] builds and [json.dumps] accepts.
    A dictionary keeps its items in insertion order. *)
#[local] Unset Elimination Schemes.
Inductive value : Type :=
| JNone
| JBool (b : bool)
| JInt (z : Z)
| JStr (s : str)
| JList (items : list value)
| JDict (items : list (str * value)).
#[local] Set Elimination Schemes.

Abbreviation dict := (list (str * value)).

(** [d.get(k)] *)
Fixpoint get (k : str) (d : dict) : option value :=
  match d with
  | [] => None
  | (k', v) :: rest => if decide (k' = k) then Some v else get k rest
  end.

(** [d[k] = v]: an existing key keeps its place, a new key goes last. *)
Fixpoint set (k : str) (v : value) (d : dict) : dict :=
  match d with
  | [] => [(k, v)]
  | (k', v') :: rest =>
      if decide (k' = k) then (k', v) :: rest else (k', v') :: set k v rest
  end.

(** [d.keys()] *)
Definition keys (d : dict) : list str := map fst d.

(** [{key: value for (key, value) in d.items() if keep(key)}] *)
Definition comprehension (keep : str → bool) (d : dict) : dict :=
  fold_left (fun acc '(key, value) => if keep key then set key value acc else acc)
            d [].

(** The record that stands for one entity. *)
Definition span_record (e : Span) : value :=
  JDict [ (lit "start", JInt (start_char e));
          (lit "end", JInt (end_char e));
          (lit "label", JStr (label_ e)) ].

(** Reading an entity back from its record, and a sequence of entities
    from a list of records. *)
Definition record_span (v : value) : option Span :=
  match v with
  | JDict [ (k1, JInt a); (k2, JInt b); (k3, JStr l) ] =>
      if decide (k1 = lit "start" ∧ k2 = lit "end" ∧ k3 = lit "label")
      then Some {| start_char := a; end_char := b; label_ := l |}
      else None
  | _ => None
  end.

Definition records_spans (v : value) : option (list Span) :=
  match v with
  | JList items => mapM record_span items
  | _ => None
  end.

(** *** [json.dumps] with its default options *)

Definition digit (n : N) : char := 48 + n.

Fixpoint uint_digits (d : Decimal.uint) : str :=
  match d with
  | Decimal.Nil => []
  | Decimal.D0 d => digit 0 :: uint_digits d
  | Decimal.D1 d => digit 1 :: uint_digits d
  | Decimal.D2 d => digit 2 :: uint_digits d
  | Decimal.D3 d => digit 3 :: uint_digits d
  | Decimal.D4 d => digit 4 :: uint_digits d
  | Decimal.D5 d => digit 5 :: uint_digits d
  | Decimal.D6 d => digit 6 :: uint_digits d
  | Decimal.D7 d => digit 7 :: uint_digits d
  | Decimal.D8 d => digit 8 :: uint_digits d
  | Decimal.D9 d => digit 9 :: uint_digits d
  end.

(** [int.__repr__]: decimal digits, with a minus sign (45) when
    negative. *)
Definition int_repr (z : Z) : str :=
  match Z.to_int z with
  | Decimal.Pos d => uint_digits d
  | Decimal.Neg d => 45 :: uint_digits d
  end.

(** One lower-case hexadecimal digit, and ['{0:04x}'.format(n)] for a
    number below [0x10000]. *)
Definition hex_digit (n : N) : char :=
  if n <? 10 then 48 + n else 87 + n.

Definition hex4 (n : N) : str :=
  [ hex_digit (N.shiftr n 12 mod 16); hex_digit (N.shiftr n 8 mod 16);
    hex_digit (N.shiftr n 4 mod 16); hex_digit (n mod 16) ].

(** A backslash (92), the letter u (117) and four hexadecimal digits. *)
Definition u_escape (n : N) : str := 92 :: 117 :: hex4 n.

(** What [ESCAPE_ASCII.sub(replace, s)] puts in the place of one
    character: the short escapes of [ESCAPE_DCT], the character itself
    from the space to the tilde, and a [\u] escape otherwise, a pair of
    surrogates above the basic plane. *)
Definition escape_char (c : char) : str :=
  if c =? 92 then [92; 92]
  else if c =? 34 then [92; 34]
  else if c =? 8 then [92; 98]
  else if c =? 12 then [92; 102]
  else if c =? 10 then [92; 110]
  else if c =? 13 then [92; 114]
  else if c =? 9 then [92; 116]
  else if (32 <=? c) && (c <=? 126) then [c]
  else if c <? 65536 then u_escape c
  else
    let n := c - 65536 in
    u_escape (N.lor 55296 (N.land (N.shiftr n 10) 1023)) ++
    u_escape (N.lor 56320 (N.land n 1023)).

(** [encode_basestring_ascii]: the escaped characters between two
    double quotes (34). *)
Definition encode_basestring_ascii (s : str) : str :=
  34 :: flat_map escape_char s ++ [34].

(** [json.dumps(o)]: items separated by [", "], keys from values by
    [": "], dictionary items in insertion order. *)
Fixpoint dumps (o : value) : str :=
  match o with
  | JNone => lit "null"
  | JBool true => lit "true"
  | JBool false => lit "false"
  | JInt z => int_repr z
  | JStr s => encode_basestring_ascii s
  | JList items => lit "[" ++ join (lit ", ") (map dumps items) ++ lit "]"
  | JDict items =>
      lit "{" ++
      join (lit ", ")
           (map (fun kv => let '(k, v) := kv in
                           encode_basestring_ascii k ++ lit ": " ++ dumps v)
                items) ++
      lit "}"
  end.

(** A character from the space to the tilde: printable ASCII. *)
Definition printable (c : char) : bool := (32 <=? c) && (c <=? 126).

(** *** Reading the exported text back

    A reader for the text that [json.dumps] produces for a dictionary
    with the single key ["ents"] and a list of entity records.  It is the
    inverse used to state that the export loses nothing. *)

(** The text has to go on with [p]; what follows [p] is returned. *)
Definition expect (p s : str) : option str :=
  if starts_with p s then Some (drop (length p) s) else None.

Definition cons_digit (c : char) : option (Decimal.uint → Decimal.uint) :=
  if c =? 48 then Some Decimal.D0
  else if c =? 49 then Some Decimal.D1
  else if c =? 50 then Some Decimal.D2
  else if c =? 51 then Some Decimal.D3
  else if c =? 52 then Some Decimal.D4
  else if c =? 53 then Some Decimal.D5
  else if c =? 54 then Some Decimal.D6
  else if c =? 55 then Some Decimal.D7
  else if c =? 56 then Some Decimal.D8
  else if c =? 57 then Some Decimal.D9
  else None.

(** The longest run of decimal digits at the front. *)
Fixpoint read_digits (s : str) : Decimal.uint * str :=
  match s with
  | [] => (Decimal.Nil, [])
  | c :: rest =>
      match cons_digit c with
      | Some d => let '(ds, r) := read_digits rest in (d ds, r)
      | None => (Decimal.Nil, s)
      end
  end.

Definition read_int (s : str) : option (Z * str) :=
  match s with
  | [] => None
  | c :: rest =>
      if c =? 45
      then let '(ds, r) := read_digits rest in
           Some (Z.of_int (Decimal.Neg ds), r)
      else let '(ds, r) := read_digits s in
           Some (Z.of_int (Decimal.Pos ds), r)
  end.

Definition hex_value (c : char) : option N :=
  if (48 <=? c) && (c <=? 57) then Some (c - 48)
  else if (97 <=? c) && (c <=? 102) then Some (c - 87)
  else None.

Definition hex4_value (a b c d : char) : option N :=
  a ← hex_value a; b ← hex_value b; c ← hex_value c; d ← hex_value d;
  Some (4096 * a + 256 * b + 16 * c + d).

(** The short escapes: the character after the backslash stands for
    itself or for a control character. *)
Definition unescape_short (e : char) : option char :=
  if e =? 92 then Some 92
  else if e =? 34 then Some 34
  else if e =? 98 then Some 8
  else if e =? 102 then Some 12
  else if e =? 110 then Some 10
  else if e =? 114 then Some 13
  else if e =? 116 then Some 9
  else None.

Definition is_high_surrogate (n : N) : bool := (55296 <=? n) && (n <=? 56319).

Definition is_low_surrogate (n : N) : bool := (56320 <=? n) && (n <=? 57343).

(** A [\u] escape of a low surrogate at the front. *)
Definition read_low_surrogate (s : str) : option (N * str) :=
  match s with
  | e1 :: e2 :: a :: b :: c :: d :: rest =>
      if (e1 =? 92) && (e2 =? 117)
      then m ← hex4_value a b c d;
           if is_low_surrogate m then Some (m, rest) else None
      else None
  | _ => None
  end.

(** The characters of a string up to its closing quote, with the escapes
    undone; a high surrogate followed by a low one is one character. *)
Fixpoint read_chars (s : str) : option (str * str) :=
  match s with
  | [] => None
  | c :: rest =>
      if c =? 34 then Some ([], rest)
      else if c =? 92 then
        match rest with
        | [] => None
        | e :: rest1 =>
            if e =? 117 then
              match rest1 with
              | a :: b :: c' :: d :: rest2 =>
                  n ← hex4_value a b c' d;
                  match (if is_high_surrogate n then read_low_surrogate rest2
                         else None), rest2 with
                  | Some (m, _), _ :: _ :: _ :: _ :: _ :: _ :: rest3 =>
                      '(t, r) ← read_chars rest3;
                      Some (65536 + (n - 55296) * 1024 + (m - 56320) :: t, r)
                  | _, _ =>
                      '(t, r) ← read_chars rest2; Some (n :: t, r)
                  end
              | _ => None
              end
            else
              x ← unescape_short e;
              '(t, r) ← read_chars rest1; Some (x :: t, r)
        end
      else '(t, r) ← read_chars rest; Some (c :: t, r)
  end.

(** One entity record. *)
Definition read_span (s : str) : option (Span * str) :=
  s ← expect (lit "{" ++ encode_basestring_ascii (lit "start") ++ lit ": ") s;
  '(a, s) ← read_int s;
  s ← expect (lit ", " ++ encode_basestring_ascii (lit "end") ++ lit ": ") s;
  '(b, s) ← read_int s;
  s ← expect (lit ", " ++ encode_basestring_ascii (lit "label") ++ lit ": ") s;
  s ← expect [34] s;
  '(l, s) ← read_chars s;
  s ← expect (lit "}") s;
  Some ({| start_char := a; end_char := b; label_ := l |}, s).

(** The records of a list that is not empty, up to its closing bracket;
    [fuel] bounds the number of records. *)
Fixpoint read_spans (fuel : nat) (s : str) : option (list Span * str) :=
  match fuel with
  | O => None
  | S fuel =>
      '(e, s) ← read_span s;
      match expect (lit ", ") s with
      | Some s => '(es, r) ← read_spans fuel s; Some (e :: es, r)
      | None => r ← expect (lit "]") s; Some ([e], r)
      end
  end.

(** The entities of an exported text. *)
Definition loads_ents (s : str) : option (list Span) :=
  s ← expect (lit "{" ++ encode_basestring_ascii (lit "ents") ++ lit ": [") s;
  match expect (lit "]") s with
  | Some r => if decide (r = lit "}") then Some [] else None
  | None =>
      '(es, r) ← read_spans (length s) s;
      if decide (r = lit "}") then Some es else None
  end.

(** The text of one entity record. *)
Definition record_text (e : Span) : str := dumps (span_record e).

(** A code point of Unicode that is not a surrogate. *)
Definition scalar (c : char) : bool :=
  (c <=? 1114111) && negb ((55296 <=? c) && (c <=? 57343)).

End Json.

(** ** The libraries behind the script *)

(** The collaborators that the script calls and does not implement: the
    XML parser, the pre-trained pipeline, the dictionary form of an
    annotated document and the displaCy renderer (its second argument is
    [page]). *)
Class Library : Type := {
  BeautifulSoup : str → Soup.node;
  nlp : str → Doc;
  to_json : Doc → Json.dict;
  displacy_render : Doc → bool → str
}.

(** What spaCy documents about [Doc.to_json] on a document with entity
    annotations: the key ["ents"] holds one record per entity of
    [doc.ents], in that order. *)
Definition to_json_lists_ents `{Library} : Prop :=
  ∀ document,
    NoDup (Json.keys (to_json document)) ∧
    Json.get (lit "ents") (to_json document)
    = Some (Json.JList (map Json.span_record (ents document))).

(** What spaCy documents about [doc.ents]: the entities come in the
    order of the text. *)
Definition nlp_orders_ents `{Library} : Prop :=
  ∀ text, ordered_by_start (ents (nlp text)).

(** ** Files, standard output and exceptions *)

Inductive event : Type :=
| Read (path : str)
| Truncated (path : str)
| Written (path data : str)
| Printed (line : str).

(** The world of a run: the directories and the files with their
    contents, and what has happened so far. *)
Record world : Type := {
  dirs : gset str;
  files : gmap str str;
  trace : list event
}.

(** The events that put data into a file. *)
Definition is_write (e : event) : bool :=
  match e with
  | Written _ _ => true
  | _ => false
  end.

Definition log (e : event) (w : world) : world :=
  {| dirs := dirs w; files := files w; trace := trace w ++ [e] |}.

Definition store (path data : str) (w : world) : world :=
  {| dirs := dirs w; files := <[path := data]> (files w); trace := trace w |}.

(** A statement either returns or raises, and leaves a world behind. *)
Definition prog (A : Type) : Type := world → outcome A * world.

Definition ret {A} (a : A) : prog A := fun w => (Return a, w).

Definition raise {A} (e : exn) : prog A := fun w => (Raise e, w).

Definition bind {A B} (m : prog A) (k : A → prog B) : prog B :=
  fun w =>
    match m w with
    | (Return a, w') => k a w'
    | (Raise e, w') => (Raise e, w')
    end.

Declare Scope prog_scope.
Delimit Scope prog_scope with prog.
Notation "x <- m ;; k" := (bind m (fun x => k))
  (at level 100, m at next level, right associativity) : prog_scope.
Notation "m ;; k" := (bind m (fun _ => k))
  (at level 100, right associativity) : prog_scope.
Local Open Scope prog_scope.

Definition lift {A} (o : outcome A) : prog A := fun w => (o, w).

(** The directory part of a path: everything before its last slash (47). *)
Fixpoint parent (path : str) : str :=
  match path with
  | [] => []
  | c :: rest => if existsb (N.eqb 47) rest then c :: parent rest else []
  end.

(** [open(path, encoding="utf-8")] followed by reading the whole file. *)
Definition open_read (path : str) : prog str :=
  fun w =>
    match files w !! path with
    | Some data => (Return data, log (Read path) w)
    | None => (Raise FileNotFoundError, w)
    end.

(** [path.open("w", encoding="utf-8")]: the file is created or emptied;
    the handle is the path. *)
Definition open_write (path : str) : prog str :=
  fun w =>
    if decide (parent path ∈ dirs w)
    then (Return path, log (Truncated path) (store path [] w))
    else (Raise FileNotFoundError, w).

(** [handle.write(data)]: the data goes after what the handle has
    written so far; the result is the number of characters. *)
Definition write (handle data : str) : prog nat :=
  fun w =>
    (Return (length data),
     log (Written handle data)
         (store handle (default [] (files w !! handle) ++ data) w)).

(** [print(line)] *)
Definition print (line : str) : prog unit :=
  fun w => (Return tt, log (Printed line) w).

(** ** The script *)

Definition input_file : str := lit "../data/henslow/letters_152.xml".

Definition output_file : str := lit "../results/ent_viz.html".

Definition title : str :=
  lit "Letter from William Christy, Jr., to John Henslow, 26 February 1831".

(** [for entity in document.ents: print(f"{entity.text}: {entity.label_}")] *)
Fixpoint print_entities (document : Doc) (entities : list Span) : prog unit :=
  match entities with
  | [] => ret tt
  | entity :: rest =>
      print (span_text document entity ++ lit ": " ++ label_ entity) ;;
      print_entities document rest
  end.

(** [ents_dict = {key: value for (key, value) in doc_dict.items()
                  if key == "ents"}] *)
Definition ents_dict (doc_dict : Json.dict) : Json.dict :=
  Json.comprehension (fun key => bool_decide (key = lit "ents")) doc_dict.

(** [json.dumps(ents_dict)] for the annotated document. *)
Definition export_json `{Library} (document : Doc) : str :=
  Json.dumps (Json.JDict (ents_dict (to_json document))).

(** [document.user_data["title"] = ...] *)
Definition set_title (document : Doc) : Doc :=
  {| doc_text := doc_text document;
     ents := ents document;
     user_data := <[lit "title" := title]> (user_data document) |}.

(** The last cell: render the page and write it to the output file. *)
Definition export_html `{Library} (document : Doc) : prog nat :=
  let document := set_title document in
  let html := displacy_render document true in
  handle <- open_write output_file ;;
  write handle html.

(** The cells of the notebook in order, up to the annotated document. *)
Definition annotate `{Library} : prog Doc :=
  file <- open_read input_file ;;
  let letter := BeautifulSoup file in
  transcription <- lift (extract_transcription letter) ;;
  print transcription ;;
  print (Json.int_repr (Z.of_nat (length transcription))) ;;
  let transcription := normalize transcription in
  let document := nlp transcription in
  print_entities document (ents document) ;;
  ret document.

(** The whole script; the values of the JSON cells and of the first
    rendering are computed and dropped. *)
Definition script `{Library} : prog unit :=
  document <- annotate ;;
  let doc_dict := to_json document in
  let _ := Json.dumps (Json.JDict (ents_dict doc_dict)) in
  let _ := displacy_render document false in
  export_html document ;;
  ret tt.

(** The line that the loop prints for one entity. *)
Definition entity_line (document : Doc) (entity : Span) : str :=
  span_text document entity ++ lit ": " ++ label_ entity.

(** ** A sample letter and stand-ins for the libraries *)

Module Sample.

Import Soup Json.

Definition transcription_div : node :=
  Tag (lit "div") {[ lit "type" := lit "transcription" ]}
      [ Tag (lit "p") ∅
            [ NavigableString (lit "I have ");
              Tag (lit "hi") {[ lit "rend" := lit "underline" ]}
                  [ NavigableString (lit "& you") ];
              Comment (lit "editorial note");
              NavigableString (lit " have") ] ].

Definition letter : node :=
  Tag (lit "[document]") ∅
      [ Tag (lit "TEI") ∅
            [ Tag (lit "teiHeader") ∅ [ NavigableString (lit "Letter 152") ];
              Tag (lit "text") ∅
                  [ Tag (lit "body") ∅
                        [ Tag (lit "div") {[ lit "type" := lit "physdesc" ]}
                              [ NavigableString (lit "2 pp") ];
                          transcription_div ] ] ] ].

(** A letter without a transcription. *)
Definition bare_letter : node :=
  Tag (lit "[document]") ∅
      [ Tag (lit "TEI") ∅
            [ Tag (lit "teiHeader") ∅ [ NavigableString (lit "Letter 152") ] ] ].

(** Two entities that overlap, and one repeated. *)
Definition spans : list Span :=
  [ {| start_char := 0; end_char := 6; label_ := lit "PERSON" |};
    {| start_char := 2; end_char := 10; label_ := lit "ORG" |};
    {| start_char := 2; end_char := 10; label_ := lit "ORG" |} ].

Definition library (soup : node) : Library :=
  {| BeautifulSoup := fun _ => soup;
     nlp := fun text =>
       {| doc_text := text; ents := spans; user_data := ∅ |};
     to_json := fun document =>
       [ (lit "text", JStr (doc_text document));
         (lit "ents", JList (map span_record (ents document)));
         (lit "tokens", JList []) ];
     displacy_render := fun document page =>
       default [] (user_data document !! lit "title") ++ doc_text document |}.

Definition full_library : Library := library letter.

Definition bare_library : Library := library bare_letter.



Definition world0 : world :=
  {| dirs := {[ lit "../results" ]};
     files := {[ input_file := lit "<TEI/>";
                 output_file := lit "an earlier page" ]};
     trace := [] |}.

End Sample.

(** * Theorems *)

(** ** Facts about the scan *)

Section Normalizer.

Lemma lit_amp_space : lit "& " = [amp; space].
Proof. reflexivity. Qed.

Lemma normalize_nil : normalize [] = [].
Proof. reflexivity. Qed.

Lemma normalize_hit (t : str) :
  normalize (amp :: space :: t) = lit "and " ++ normalize t.
Proof. reflexivity. Qed.

Lemma normalize_cons (c : char) (t : str) :
  normalize (c :: t) =
    if starts_with [amp; space] (c :: t)
    then lit "and " ++ replace_scan [amp; space] (lit "and ") 1 t
    else c :: normalize t.
Proof. reflexivity. Qed.

Lemma starts_amp_space (c : char) (t : str) :
  starts_with [amp; space] (c :: t) = true ↔ c = amp ∧ head t = Some space.
Proof.
  cbn [starts_with]. destruct t as [| d t']; cbn [head].
  - rewrite andb_false_r. split; [discriminate | intros [_ H]; discriminate].
  - rewrite andb_true_r, andb_true_iff, !N.eqb_eq.
    split; intros [H1 H2]; split; congruence.
Qed.

Lemma normalize_keep (c : char) (t : str) :
  (c ≠ amp ∨ head t ≠ Some space) → normalize (c :: t) = c :: normalize t.
Proof.
  intros H. rewrite normalize_cons.
  destruct (starts_with [amp; space] (c :: t)) eqn:E; [| reflexivity].
  apply starts_amp_space in E. tauto.
Qed.

(** Induction along the scan: an occurrence is consumed as a whole. *)
Lemma scan_ind (P : str → Prop) :
  P [] →
  (∀ t, P t → P (amp :: space :: t)) →
  (∀ c t, (c ≠ amp ∨ head t ≠ Some space) → P t → P (c :: t)) →
  ∀ s, P s.
Proof.
  intros Hnil Hhit Hkeep s.
  assert (H : ∀ n (s : str), (length s ≤ n)%nat → P s).
  { clear s. induction n as [| n IH]; intros s Hn.
    - destruct s; [assumption | simpl in Hn; lia].
    - destruct s as [| c t]; [assumption |].
      simpl in Hn.
      destruct (decide (c = amp ∧ head t = Some space)) as [[-> Ht] | Hno].
      + destruct t as [| d t']; [discriminate |].
        simpl in Ht. injection Ht as ->.
        apply Hhit, IH. simpl in Hn. lia.
      + apply Hkeep; [| apply IH; lia].
        destruct (decide (c = amp)); [right | left]; tauto. }
  apply (H (length s)). lia.
Qed.

Lemma head_normalize (t : str) :
  head (normalize t) = Some space → head t = Some space.
Proof.
  destruct t as [| c t]; [discriminate |].
  rewrite normalize_cons.
  destruct (starts_with [amp; space] (c :: t)); [discriminate |].
  trivial.
Qed.

Lemma contains_cons (p : str) (c : char) (t : str) :
  contains p (c :: t) = starts_with p (c :: t) || contains p t.
Proof. reflexivity. Qed.

Lemma normalize_clean (s : str) :
  contains [amp; space] (normalize s) = false.
Proof.
  induction s as [| t IH | c t Hc IH] using scan_ind.
  - reflexivity.
  - rewrite normalize_hit. change (lit "and ") with [97; 110; 100; 32].
    cbn [app]. rewrite !contains_cons, IH. reflexivity.
  - rewrite normalize_keep by assumption.
    rewrite contains_cons, IH, orb_false_r.
    destruct (starts_with [amp; space] (c :: normalize t)) eqn:E; [| reflexivity].
    apply starts_amp_space in E. destruct E as [-> E].
    apply head_normalize in E. tauto.
Qed.

Lemma normalize_fixed (s : str) :
  contains [amp; space] s = false → normalize s = s.
Proof.
  induction s as [| c t IH]; [reflexivity |].
  rewrite contains_cons, orb_false_iff. intros [H1 H2].
  rewrite normalize_cons, H1. f_equal. auto.
Qed.

Lemma starts_with_app (p v : str) : starts_with p (p ++ v) = true.
Proof.
  induction p as [| a p IH]; [reflexivity |].
  simpl. now rewrite N.eqb_refl.
Qed.

Lemma starts_with_inv (p s : str) :
  starts_with p s = true → ∃ v, s = p ++ v.
Proof.
  revert s. induction p as [| a p IH]; intros s H.
  - now exists s.
  - destruct s as [| b s]; [discriminate |].
    simpl in H. apply andb_true_iff in H as [H1 H2].
    apply N.eqb_eq in H1 as ->. destruct (IH _ H2) as [v ->].
    now exists v.
Qed.

(** [contains] decides the existence of an occurrence. *)
Lemma contains_spec (p s : str) :
  contains p s = true ↔ ∃ u v, s = u ++ p ++ v.
Proof.
  split.
  - induction s as [| c t IH].
    + simpl. rewrite orb_false_r. intros H.
      apply starts_with_inv in H as [v ->]. now exists [], v.
    + rewrite contains_cons, orb_true_iff. intros [H | H].
      * apply starts_with_inv in H as [v ->]. now exists [], v.
      * destruct (IH H) as (u & v & ->). now exists (c :: u), v.
  - intros (u & v & ->). induction u as [| c u IH].
    + cbn [app]. pose proof (starts_with_app p v) as H.
      destruct (p ++ v); simpl; now rewrite H.
    + cbn [app]. rewrite contains_cons, IH. apply orb_true_r.
Qed.

(** The scan of a concatenation splits at the seam unless an occurrence
    straddles it. *)
Lemma normalize_app (u w : str) :
  (last u = Some amp → head w ≠ Some space) →
  normalize (u ++ w) = normalize u ++ normalize w.
Proof.
  induction u as [| t IH | c t Hc IH] using scan_ind; intros Hseam.
  - reflexivity.
  - cbn [app]. rewrite !normalize_hit, <- app_assoc. f_equal.
    apply IH. intros Ht. apply Hseam.
    destruct t; [discriminate | exact Ht].
  - cbn [app]. rewrite (normalize_keep c t) by assumption.
    rewrite normalize_keep.
    + cbn [app]. f_equal. apply IH.
      intros Ht. apply Hseam. destruct t; [discriminate | exact Ht].
    + destruct t as [| d t']; [| exact Hc].
      destruct (decide (c = amp)) as [-> | Hne]; [right | now left].
      simpl. now apply Hseam.
Qed.

Lemma occurs_at_seam (p pre s : str) :
  occurs_at p (pre ++ s) (length pre) = starts_with p s.
Proof. unfold occurs_at. now rewrite drop_app_length. Qed.

Lemma occurs_before_seam (pre s : str) :
  (last pre = Some amp → head s ≠ Some space) →
  (0 <? length pre)%nat && occurs_at [amp; space] (pre ++ s) (length pre - 1)
  = false.
Proof.
  intros Hseam. destruct pre as [| x pre _] using rev_ind; [reflexivity |].
  rewrite length_app, Nat.add_sub, <- app_assoc, occurs_at_seam.
  cbn [app length]. apply andb_false_iff. right.
  destruct (starts_with [amp; space] (x :: s)) eqn:E; [| reflexivity].
  apply starts_amp_space in E as [-> E].
  rewrite last_snoc in Hseam. now destruct Hseam.
Qed.

Lemma emit_at_hit (pre t : str) :
  emit_at (pre ++ amp :: space :: t) (length pre) = lit "and ".
Proof. unfold emit_at. now rewrite lit_amp_space, occurs_at_seam. Qed.

Lemma emit_at_covered (pre t : str) :
  emit_at (pre ++ amp :: space :: t) (S (length pre)) = [].
Proof.
  unfold emit_at. rewrite lit_amp_space.
  replace (occurs_at [amp; space] (pre ++ amp :: space :: t) (S (length pre)))
    with false.
  - cbn [Nat.ltb Nat.leb andb]. rewrite Nat.sub_1_r. cbn [Nat.pred].
    now rewrite occurs_at_seam.
  - change (pre ++ amp :: space :: t) with (pre ++ [amp] ++ space :: t).
    rewrite app_assoc.
    replace (S (length pre)) with (length (pre ++ [amp]))
      by (rewrite length_app; simpl; lia).
    now rewrite occurs_at_seam.
Qed.

Lemma emit_at_keep (pre : str) (c : char) (t : str) :
  (c ≠ amp ∨ head t ≠ Some space) →
  (last pre = Some amp → c ≠ space) →
  emit_at (pre ++ c :: t) (length pre) = [c].
Proof.
  intros Hc Hseam. unfold emit_at. rewrite lit_amp_space, occurs_at_seam.
  destruct (starts_with [amp; space] (c :: t)) eqn:E.
  { apply starts_amp_space in E. tauto. }
  rewrite occurs_before_seam.
  - now rewrite list_lookup_middle.
  - intros H. simpl. specialize (Hseam H). congruence.
Qed.

(** The reference substitution read from position [length pre] on agrees
    with the scan of the remaining suffix. *)
Lemma substitute_from (s pre : str) :
  (last pre = Some amp → head s ≠ Some space) →
  flat_map (emit_at (pre ++ s)) (seq (length pre) (length s)) = normalize s.
Proof.
  revert pre.
  induction s as [| t IH | c t Hc IH] using scan_ind; intros pre Hseam.
  - reflexivity.
  - cbn [length seq flat_map].
    rewrite emit_at_hit, emit_at_covered, normalize_hit. cbn [app].
    do 4 f_equal.
    specialize (IH (pre ++ [amp; space])).
    rewrite <- app_assoc, length_app in IH. cbn [app length] in IH.
    replace (S (S (length pre))) with (length pre + 2)%nat by lia.
    apply IH. change [amp; space] with ([amp] ++ [space]).
    rewrite app_assoc, last_snoc. discriminate.
  - cbn [length seq flat_map].
    rewrite emit_at_keep, normalize_keep; [| assumption .. |].
    + cbn [app]. f_equal.
      specialize (IH (pre ++ [c])).
      rewrite <- app_assoc, length_app in IH. cbn [app length] in IH.
      replace (S (length pre)) with (length pre + 1)%nat by lia.
      apply IH. rewrite last_snoc. intros [= ->].
      destruct Hc; [congruence | assumption].
    + intros H. specialize (Hseam H). simpl in Hseam. congruence.
Qed.

End Normalizer.

(** ** The normalizer *)

(** C1: normalising is idempotent, and one pass leaves no occurrence of
    the pattern ["& "] in the result. *)
Theorem normalize_idempotent (S : str) :
  normalize (normalize S) = normalize S ∧
  contains (lit "& ") (normalize S) = false ∧
  ∀ u v, normalize S ≠ u ++ lit "& " ++ v.
Proof.
  pose proof (normalize_clean S) as Hclean.
  split; [| split].
  - now apply normalize_fixed.
  - exact Hclean.
  - intros u v E.
    assert (contains [amp; space] (normalize S) = true) as H
      by (apply contains_spec; eauto).
    congruence.
Qed.

(** C5: the output of the normalizer is the reference global
    substitution: each occurrence of ["& "] becomes ["and "] and every
    character outside an occurrence is copied unchanged, in order. *)
Theorem normalize_is_global_substitution (s : str) :
  normalize s = substitute_all_ref s.
Proof.
  unfold substitute_all_ref. symmetry.
  apply (substitute_from s []). discriminate.
Qed.

(** C6: ["I have & you have"] is normalised to ["I have and you have"]. *)
Theorem normalize_sample :
  normalize (lit "I have & you have") = lit "I have and you have".
Proof. vm_compute. reflexivity. Qed.

(** C10: an ampersand that is not directly followed by a space is copied
    to the output unchanged, between the normalised text before it and
    the normalised text after it. *)
Theorem ampersand_without_space_kept (u v : str) :
  head v ≠ Some space →
  normalize (u ++ amp :: v) = normalize u ++ amp :: normalize v.
Proof.
  intros Hv. rewrite normalize_app by (intros _; discriminate).
  now rewrite (normalize_keep amp v) by now right.
Qed.

(** Witness of C10 on the abbreviation ["&c."] and on a final ampersand. *)
Lemma ampersand_without_space_kept_witness :
  normalize (lit "pears, " ++ amp :: lit "c.")
  = normalize (lit "pears, ") ++ amp :: normalize (lit "c.").
Proof.
  apply (ampersand_without_space_kept (lit "pears, ") (lit "c.")).
  vm_compute. discriminate.
Defined.

(** ** Extracting the transcription *)

Section Extraction.

Import Soup.

Lemma node_induction (P : node → Prop) :
  (∀ s, P (NavigableString s)) →
  (∀ s, P (Comment s)) →
  (∀ name attrs contents, Forall P contents → P (Tag name attrs contents)) →
  ∀ n, P n.
Proof.
  intros Hstr Hcom Htag. fix IH 1. intros [s | s | name attrs contents].
  - apply Hstr.
  - apply Hcom.
  - apply Htag. induction contents as [| c cs IHcs]; constructor.
    + apply IH.
    + exact IHcs.
Qed.

Lemma find_head_of_filter {A} (f : A → bool) (l : list A) (x : A) (r : list A) :
  List.filter f l = x :: r → List.find f l = Some x.
Proof.
  induction l as [| a l IH]; [discriminate |].
  simpl. destruct (f a); [congruence | exact IH].
Qed.

Lemma find_none_of_filter {A} (f : A → bool) (l : list A) :
  List.filter f l = [] → List.find f l = None.
Proof.
  induction l as [| a l IH]; [reflexivity |].
  simpl. destruct (f a); [discriminate | exact IH].
Qed.

(** The strings met from a node onwards make up its text content. *)
Lemma strings_text_content (n : node) :
  concat (omap string_of (n :: descendants n)) = text_content n.
Proof.
  induction n as [s | s | name attrs contents IH] using node_induction.
  - simpl. apply app_nil_r.
  - reflexivity.
  - cbn [omap list_omap string_of descendants text_content].
    induction IH as [| c cs Hc _ IHcs]; [reflexivity |].
    cbn [List.flat_map map concat].
    rewrite <- Hc, <- IHcs.
    change (c :: descendants c ++ ?r) with ((c :: descendants c) ++ r).
    now rewrite omap_app, concat_app.
Qed.

Lemma text_of_tag (name : str) (attrs : gmap str str) (contents : list node) :
  text (Tag name attrs contents) = text_content (Tag name attrs contents).
Proof. now rewrite <- strings_text_content. Qed.

Lemma has_attr_tag (k v : str) (n : node) :
  has_attr k v n = true → ∃ name attrs contents, n = Tag name attrs contents.
Proof. destruct n; try discriminate. eauto. Qed.

(** C3: when exactly one subtree of the parsed letter carries
    [type="transcription"], the extraction returns the whole text content
    of that subtree: its character data and that of its nested elements,
    in document order. *)
Theorem unique_transcription_extracted (letter e : node) :
  find_all (lit "type") (lit "transcription") letter = [e] →
  extract_transcription letter = Return (text_content e).
Proof.
  intros Hone. unfold extract_transcription, find.
  rewrite (find_head_of_filter _ _ _ _ Hone).
  assert (has_attr (lit "type") (lit "transcription") e = true) as He.
  { assert (In e (List.filter (has_attr (lit "type") (lit "transcription"))
                             (descendants letter))) as Hin
      by (unfold find_all in Hone; rewrite Hone; now left).
    now apply filter_In in Hin. }
  apply has_attr_tag in He as (name & attrs & contents & ->).
  now rewrite text_of_tag.
Qed.

(** Witness of C3 on the sample letter. *)
Lemma unique_transcription_extracted_witness :
  extract_transcription Sample.letter = Return (lit "I have & you have").
Proof.
  apply (unique_transcription_extracted Sample.letter Sample.transcription_div).
  vm_compute. reflexivity.
Defined.

End Extraction.

(** ** A letter without a transcription *)

Section MissingTranscription.

Context `{Library}.

Lemma extract_none (letter : Soup.node) :
  Soup.find_all (lit "type") (lit "transcription") letter = [] →
  extract_transcription letter = Raise AttributeError.
Proof.
  intros Hnone. unfold extract_transcription, Soup.find.
  now rewrite (find_none_of_filter _ _ Hnone).
Qed.

(** C4: when no subtree of the parsed letter carries
    [type="transcription"], the extraction raises, nothing handles the
    exception, and the script ends with it: nothing is printed, no file
    is written, and the only thing that has happened is the reading of
    the letter. *)
Theorem missing_transcription_uncaught (w : world) (file : str) :
  files w !! input_file = Some file →
  Soup.find_all (lit "type") (lit "transcription") (BeautifulSoup file) = [] →
  extract_transcription (BeautifulSoup file) = Raise AttributeError ∧
  annotate w = (Raise AttributeError, log (Read input_file) w) ∧
  script w = (Raise AttributeError, log (Read input_file) w).
Proof.
  intros Hfile Hnone. pose proof (extract_none _ Hnone) as Hraise.
  assert (annotate w = (Raise AttributeError, log (Read input_file) w)) as Ha.
  { unfold annotate, bind, open_read, lift. now rewrite Hfile, Hraise. }
  repeat split; [exact Hraise | exact Ha |].
  unfold script, bind. now rewrite Ha.
Qed.

End MissingTranscription.

(** Witness of C4 on a letter that has only a header. *)
Lemma missing_transcription_uncaught_witness :
  extract_transcription (@BeautifulSoup Sample.bare_library (lit "<TEI/>"))
  = Raise AttributeError ∧
  @annotate Sample.bare_library Sample.world0
  = (Raise AttributeError, log (Read input_file) Sample.world0) ∧
  @script Sample.bare_library Sample.world0
  = (Raise AttributeError, log (Read input_file) Sample.world0).
Proof.
  apply (@missing_transcription_uncaught Sample.bare_library Sample.world0
           (lit "<TEI/>")).
  - vm_compute. reflexivity.
  - vm_compute. reflexivity.
Defined.

(** ** Exporting the entities *)

Section EntsExport.

Import Json.

Lemma get_app (k : str) (d1 d2 : dict) :
  get k (d1 ++ d2) = match get k d1 with
                     | Some v => Some v
                     | None => get k d2
                     end.
Proof.
  induction d1 as [| [k' v'] d1 IH]; [reflexivity |].
  simpl. now destruct (decide (k' = k)).
Qed.

Lemma get_none (k : str) (d : dict) : get k d = None ↔ k ∉ keys d.
Proof.
  induction d as [| [k' v'] d IH]; simpl.
  - split; [intros _; apply not_elem_of_nil | reflexivity].
  - rewrite not_elem_of_cons. destruct (decide (k' = k)) as [-> | Hne].
    + split; [discriminate | intros [E _]; now destruct E].
    + rewrite IH. split; [intros; split; congruence | tauto].
Qed.

(** The comprehension, one item further. *)
Lemma comprehension_snoc (keep : str → bool) (d : dict) (k : str) (v : value) :
  comprehension keep (d ++ [(k, v)])
  = if keep k then set k v (comprehension keep d) else comprehension keep d.
Proof. unfold comprehension. now rewrite fold_left_app. Qed.

(** Only the key ["ents"] passes the filter, with the value that the
    dictionary gives it. *)
Lemma ents_dict_get (d : dict) :
  NoDup (keys d) →
  ents_dict d = match get (lit "ents") d with
                | Some v => [(lit "ents", v)]
                | None => []
                end.
Proof.
  unfold ents_dict.
  induction d as [| [k v] d IH] using rev_ind; intros Hnd; [reflexivity |].
  unfold keys in Hnd. rewrite map_app in Hnd. cbn [map fst] in Hnd.
  apply NoDup_app in Hnd as (Hd & Hk & _).
  rewrite comprehension_snoc, get_app, (IH Hd). cbn [get].
  case_bool_decide as Ek.
  - subst k. destruct (decide (lit "ents" = lit "ents")); [| congruence].
    assert (get (lit "ents") d = None) as ->; [| reflexivity].
    apply get_none. intros Hin. apply (Hk _ Hin). now left.
  - destruct (decide (k = lit "ents")); [congruence |].
    now destruct (get (lit "ents") d).
Qed.

Lemma record_span_record (e : Span) : record_span (span_record e) = Some e.
Proof. destruct e. reflexivity. Qed.

Lemma records_spans_records (spans : list Span) :
  records_spans (JList (map span_record spans)) = Some spans.
Proof.
  unfold records_spans. apply mapM_Some.
  induction spans as [| e spans IH]; constructor.
  - apply record_span_record.
  - exact IH.
Qed.

Context `{Library}.

Lemma ents_dict_to_json (document : Doc) :
  to_json_lists_ents →
  ents_dict (to_json document)
  = [(lit "ents", JList (map span_record (ents document)))].
Proof.
  intros Hjson. destruct (Hjson document) as [Hnd Hget].
  now rewrite (ents_dict_get _ Hnd), Hget.
Qed.

(** A run that reaches the annotated document got it from the pipeline. *)
Lemma annotate_returns (w w' : world) (document : Doc) :
  annotate w = (Return document, w') → ∃ text, document = nlp text.
Proof.
  unfold annotate, bind, open_read, lift, print.
  destruct (files w !! input_file) as [file |]; [| discriminate].
  destruct (extract_transcription (BeautifulSoup file)) as [t |];
    [| discriminate].
  generalize (nlp (normalize t)) at 1 as d.
  generalize (log (Printed (int_repr (Z.of_nat (length t))))
                (log (Printed t) (log (Read input_file) w))) as w0.
  intros w0 d.
  generalize (ents (nlp (normalize t))) as l.
  intros l. revert w0. induction l as [| e l IH]; intros w0; simpl.
  - unfold ret. intros [= <- _]. eauto.
  - unfold bind, print. apply IH.
Qed.

End EntsExport.

Lemma sample_to_json_lists_ents (soup : Soup.node) :
  @to_json_lists_ents (Sample.library soup).
Proof.
  intros document. split; [| reflexivity].
  cbn. repeat constructor; cbn; intros Hin.
  - apply elem_of_cons in Hin as [Hin | Hin]; [discriminate |].
    apply list_elem_of_singleton in Hin. discriminate.
  - apply list_elem_of_singleton in Hin. discriminate.
  - inversion Hin.
Qed.

(** ** The order of the entities *)


(** ** Writing the page *)

Section Writing.

Context `{Library}.

(** The last cell on its own: the page replaces whatever the file held. *)
Lemma export_html_effect (document : Doc) (w : world) :
  parent output_file ∈ dirs w →
  let html := displacy_render (set_title document) true in
  export_html document w
  = (Return (length html),
     {| dirs := dirs w;
        files := <[output_file := html]> (files w);
        trace := trace w ++
                 [Truncated output_file; Written output_file html] |}).
Proof.
  intros Hdir html. unfold export_html, bind, open_write, write.
  destruct (decide (parent output_file ∈ dirs w)) as [_ | Hno]; [| tauto].
  fold html. unfold log, store. cbn [files dirs trace].
  rewrite lookup_insert_eq. cbn [default app].
  now rewrite insert_insert_eq, <- app_assoc.
Qed.

Lemma export_html_refused (document : Doc) (w : world) :
  parent output_file ∉ dirs w →
  export_html document w = (Raise FileNotFoundError, w).
Proof.
  intros Hdir. unfold export_html, bind, open_write.
  now destruct (decide (parent output_file ∈ dirs w)).
Qed.

(** Printing touches no file. *)
Lemma print_entities_frame (document : Doc) (entities : list Span) (w : world) :
  ∃ w', print_entities document entities w = (Return tt, w') ∧
        dirs w' = dirs w ∧ files w' = files w ∧
        List.filter is_write (trace w') = List.filter is_write (trace w).
Proof.
  revert w. induction entities as [| e entities IH]; intros w.
  - exists w. repeat split.
  - cbn [print_entities]. unfold bind, print.
    destruct (IH (log (Printed (span_text document e ++ lit ": " ++ label_ e))
                      w)) as (w' & -> & Hd & Hf & Ht).
    exists w'. repeat split; [exact Hd | exact Hf |].
    rewrite Ht. cbn [log trace]. rewrite List.filter_app. cbn.
    apply app_nil_r.
Qed.

(** Up to the annotated document the script only reads and prints. *)
Lemma annotate_frame (w w' : world) (r : outcome Doc) :
  annotate w = (r, w') →
  dirs w' = dirs w ∧ files w' = files w ∧
  List.filter is_write (trace w') = List.filter is_write (trace w).
Proof.
  unfold annotate, bind, open_read, lift, print.
  destruct (files w !! input_file) as [file |];
    [| intros [= <- <-]; repeat split].
  destruct (extract_transcription (BeautifulSoup file)) as [t | e].
  - match goal with
    | |- context [print_entities ?d ?l ?w0] =>
        destruct (print_entities_frame d l w0) as (w1 & -> & Hd & Hf & Ht)
    end.
    unfold ret. intros [= <- <-]. rewrite Hd, Hf, Ht.
    cbn [log dirs files trace]. repeat split.
    rewrite !List.filter_app. cbn. now rewrite !app_nil_r.
  - intros [= <- <-]. cbn [log dirs files trace]. repeat split.
    rewrite List.filter_app. cbn. apply app_nil_r.
Qed.

End Writing.

(** C8: in a run of the script the page is written once, to the one
    fixed path [output_file], and replaces whatever that file held; every
    other file is as it was before the run.  A run that ends with an
    exception has written nothing. *)
Theorem html_written_once `{Library} (w w' : world) (r : outcome unit) :
  script w = (r, w') →
  (∀ path, path ≠ output_file → files w' !! path = files w !! path) ∧
  match r with
  | Return _ =>
      ∃ document,
        let html := displacy_render (set_title document) true in
        files w' = <[output_file := html]> (files w) ∧
        files w' !! output_file = Some html ∧
        List.filter is_write (trace w')
        = List.filter is_write (trace w) ++ [Written output_file html]
  | Raise _ =>
      files w' = files w ∧
      List.filter is_write (trace w') = List.filter is_write (trace w)
  end.
Proof.
  unfold script, bind.
  destruct (annotate w) as [[document | e] w1] eqn:Ha;
    apply annotate_frame in Ha as (Hd & Hf & Ht).
  - destruct (decide (parent output_file ∈ dirs w1)) as [Hdir | Hdir].
    + rewrite (export_html_effect document w1 Hdir). unfold ret.
      intros [= <- <-]. cbn [files trace]. rewrite Hf. split.
      * intros path Hne. now apply lookup_insert_ne.
      * exists document. cbv zeta. repeat split.
        -- apply lookup_insert_eq.
        -- rewrite List.filter_app, Ht. reflexivity.
    + rewrite (export_html_refused document w1 Hdir).
      intros [= <- <-]. rewrite Hf, Ht. repeat split.
  - intros [= <- <-]. rewrite Hf, Ht. repeat split.
Qed.

(** Witness of C8: the output path held an earlier page, which the run
    replaces; the letter is untouched. *)
Lemma html_written_once_witness :
  (∀ path, path ≠ output_file →
           files (snd (@script Sample.full_library Sample.world0)) !! path
           = files Sample.world0 !! path) ∧
  ∃ document,
    let html := @displacy_render Sample.full_library (set_title document) true in
    files (snd (@script Sample.full_library Sample.world0))
    = <[output_file := html]> (files Sample.world0) ∧
    files (snd (@script Sample.full_library Sample.world0)) !! output_file
    = Some html ∧
    List.filter is_write (trace (snd (@script Sample.full_library Sample.world0)))
    = List.filter is_write (trace Sample.world0) ++ [Written output_file html].
Proof.
  apply (@html_written_once Sample.full_library Sample.world0
           (snd (@script Sample.full_library Sample.world0)) (Return tt)).
  vm_compute. reflexivity.
Defined.

(** ** Reading the exported text back *)

Section Reader.

Import Json.

Lemma expect_app (p r : str) : expect p (p ++ r) = Some r.
Proof. unfold expect. now rewrite starts_with_app, drop_app_length. Qed.

Lemma read_digits_uint (d : Decimal.uint) (r : str) :
  read_digits (uint_digits d ++ 44 :: r) = (d, 44 :: r).
Proof.
  induction d as [| d IH | d IH | d IH | d IH | d IH | d IH | d IH | d IH
                  | d IH | d IH];
    [reflexivity | ..];
    cbn [uint_digits app read_digits]; rewrite IH; reflexivity.
Qed.

Lemma uint_digits_head (d : Decimal.uint) (r : str) :
  ∃ c t, uint_digits d ++ 44 :: r = c :: t ∧ (c =? 45) = false.
Proof. destruct d; cbn [uint_digits app]; eauto. Qed.

Lemma read_int_repr (z : Z) (r : str) :
  read_int (int_repr z ++ 44 :: r) = Some (z, 44 :: r).
Proof.
  unfold int_repr. pose proof (DecimalZ.of_to z) as Hz.
  destruct (Z.to_int z) as [d | d].
  - destruct (uint_digits_head d r) as (c & t & E & Hc).
    unfold read_int. rewrite E, Hc, <- E, read_digits_uint. now rewrite Hz.
  - cbn [app read_int]. rewrite N.eqb_refl, read_digits_uint. now rewrite Hz.
Qed.

Lemma forallb_below (P : N → bool) (k : nat) :
  forallb P (map N.of_nat (seq 0 k)) = true →
  ∀ x, x < N.of_nat k → P x = true.
Proof.
  intros Hall x Hx. rewrite forallb_forall in Hall. apply Hall.
  apply in_map_iff. exists (N.to_nat x). split; [apply N2Nat.id |].
  apply in_seq. lia.
Qed.

Lemma hex_value_digit (d : N) : d < 16 → hex_value (hex_digit d) = Some d.
Proof.
  intros Hd.
  apply (forallb_below
           (fun d => bool_decide (hex_value (hex_digit d) = Some d)) 16)
    in Hd; [now apply bool_decide_eq_true_1 in Hd | now vm_compute].
Qed.

Lemma nibbles (n : N) :
  n < 65536 →
  4096 * (N.shiftr n 12 mod 16) + 256 * (N.shiftr n 8 mod 16) +
  16 * (N.shiftr n 4 mod 16) + n mod 16 = n.
Proof.
  intros Hn. rewrite !N.shiftr_div_pow2.
  change (2 ^ 12) with 4096. change (2 ^ 8) with 256. change (2 ^ 4) with 16.
  zify. Z.to_euclidean_division_equations. lia.
Qed.

Lemma hex4_value_hex4 (n : N) (rest : str) :
  n < 65536 →
  ∃ a b c d, hex4 n ++ rest = a :: b :: c :: d :: rest ∧
             hex4_value a b c d = Some n.
Proof.
  intros Hn. unfold hex4. do 4 eexists. split; [reflexivity |].
  unfold hex4_value.
  rewrite !hex_value_digit by (apply N.mod_lt; discriminate).
  cbn [mbind option_bind]. now rewrite nibbles.
Qed.

Lemma lor_high (x : N) : x < 1024 → N.lor 55296 x = 55296 + x.
Proof.
  intros Hx.
  apply (forallb_below (fun x => N.lor 55296 x =? 55296 + x) 1024) in Hx;
    [now apply N.eqb_eq | now vm_compute].
Qed.

Lemma lor_low (x : N) : x < 1024 → N.lor 56320 x = 56320 + x.
Proof.
  intros Hx.
  apply (forallb_below (fun x => N.lor 56320 x =? 56320 + x) 1024) in Hx;
    [now apply N.eqb_eq | now vm_compute].
Qed.

(** The two surrogates that stand for a character above the basic plane. *)
Lemma surrogates (c : N) :
  65536 ≤ c → c ≤ 1114111 →
  let n := c - 65536 in
  let hi := N.lor 55296 (N.land (N.shiftr n 10) 1023) in
  let lo := N.lor 56320 (N.land n 1023) in
  hi < 65536 ∧ lo < 65536 ∧
  is_high_surrogate hi = true ∧ is_low_surrogate lo = true ∧
  65536 + (hi - 55296) * 1024 + (lo - 56320) = c.
Proof.
  intros Hlo Hhi n hi lo. subst hi lo.
  change 1023 with (N.ones 10). rewrite !N.land_ones, N.shiftr_div_pow2.
  change (2 ^ 10) with 1024.
  assert (c = n + 65536) as Hc by (subst n; lia). clearbody n.
  assert (n < 1048576) as Hn by lia.
  assert (n / 1024 < 1024) as Hq
    by (apply N.Div0.div_lt_upper_bound; lia).
  rewrite (N.mod_small (n / 1024)) by exact Hq.
  assert (n mod 1024 < 1024) as Hr by (apply N.mod_lt; discriminate).
  rewrite lor_high, lor_low by assumption.
  unfold is_high_surrogate, is_low_surrogate.
  pose proof (N.div_mod n 1024 ltac:(discriminate)) as Hdm.
  rewrite !andb_true_iff, !N.leb_le.
  set (q := n / 1024) in *. set (r := n mod 1024) in *. clearbody q r.
  repeat split; lia.
Qed.

Lemma read_chars_plain (c : char) (rest : str) :
  (c =? 34) = false → (c =? 92) = false →
  read_chars (c :: rest) = '(t, r) ← read_chars rest; Some (c :: t, r).
Proof. intros H34 H92. cbn [read_chars]. now rewrite H34, H92. Qed.

Lemma read_chars_short (e x : char) (rest : str) :
  (e =? 117) = false → unescape_short e = Some x →
  read_chars (92 :: e :: rest) = '(t, r) ← read_chars rest; Some (x :: t, r).
Proof.
  intros H117 Hx. cbn [read_chars].
  change (92 =? 34) with false. change (92 =? 92) with true. cbv iota.
  now rewrite H117, Hx.
Qed.

Lemma read_chars_u (a b c d : char) (n : N) (rest : str) :
  hex4_value a b c d = Some n → is_high_surrogate n = false →
  read_chars (92 :: 117 :: a :: b :: c :: d :: rest)
  = '(t, r) ← read_chars rest; Some (n :: t, r).
Proof.
  intros Hn Hhigh. cbn [read_chars].
  change (92 =? 34) with false. change (92 =? 92) with true.
  change (117 =? 117) with true. cbv iota.
  rewrite Hn. cbn [mbind option_bind]. rewrite Hhigh.
  now destruct rest.
Qed.

Lemma read_chars_pair (a b c d a' b' c' d' : char) (n m : N) (rest : str) :
  hex4_value a b c d = Some n → is_high_surrogate n = true →
  hex4_value a' b' c' d' = Some m → is_low_surrogate m = true →
  read_chars (92 :: 117 :: a :: b :: c :: d ::
              92 :: 117 :: a' :: b' :: c' :: d' :: rest)
  = '(t, r) ← read_chars rest;
    Some (65536 + (n - 55296) * 1024 + (m - 56320) :: t, r).
Proof.
  intros Hn Hhigh Hm Hlow. cbn [read_chars read_low_surrogate].
  change (92 =? 34) with false. change (92 =? 92) with true.
  change (117 =? 117) with true. cbv iota. cbn [andb].
  rewrite Hn. cbn [mbind option_bind]. rewrite Hhigh, Hm.
  cbn [mbind option_bind]. now rewrite Hlow.
Qed.

Lemma scalar_inv (c : char) :
  scalar c = true → c ≤ 1114111 ∧ (c < 55296 ∨ 57343 < c).
Proof.
  unfold scalar. rewrite andb_true_iff, negb_true_iff, andb_false_iff.
  rewrite N.leb_le, !N.leb_gt. tauto.
Qed.

(** One escaped character is read back as the character. *)
Lemma read_chars_escape (c : char) (rest l r : str) :
  scalar c = true →
  read_chars rest = Some (l, r) →
  read_chars (escape_char c ++ rest) = Some (c :: l, r).
Proof.
  intros Hc IH. apply scalar_inv in Hc as [Hmax Hsur].
  unfold escape_char.
  destruct (N.eqb_spec c 92) as [-> | H92];
    [cbn [app]; now rewrite (read_chars_short 92 92), IH |].
  destruct (N.eqb_spec c 34) as [-> | H34];
    [cbn [app]; now rewrite (read_chars_short 34 34), IH |].
  destruct (N.eqb_spec c 8) as [-> | H8];
    [cbn [app]; now rewrite (read_chars_short 98 8), IH |].
  destruct (N.eqb_spec c 12) as [-> | H12];
    [cbn [app]; now rewrite (read_chars_short 102 12), IH |].
  destruct (N.eqb_spec c 10) as [-> | H10];
    [cbn [app]; now rewrite (read_chars_short 110 10), IH |].
  destruct (N.eqb_spec c 13) as [-> | H13];
    [cbn [app]; now rewrite (read_chars_short 114 13), IH |].
  destruct (N.eqb_spec c 9) as [-> | H9];
    [cbn [app]; now rewrite (read_chars_short 116 9), IH |].
  destruct ((32 <=? c) && (c <=? 126)) eqn:Hprint.
  { cbn [app]. rewrite read_chars_plain, IH; [reflexivity | ..];
      now apply N.eqb_neq. }
  destruct (N.ltb_spec c 65536) as [Hbmp | Hastral].
  - unfold u_escape. cbn [app].
    destruct (hex4_value_hex4 c rest Hbmp) as (a & b & c' & d & -> & Hv).
    rewrite (read_chars_u _ _ _ _ c), IH; [reflexivity | exact Hv |].
    unfold is_high_surrogate. apply andb_false_iff.
    rewrite N.leb_gt, N.leb_gt. lia.
  - destruct (surrogates c Hastral Hmax) as (Hhi & Hlo & Hhigh & Hlow & Hsum).
    cbv zeta in Hhi, Hlo, Hhigh, Hlow, Hsum. cbv zeta.
    unfold u_escape. rewrite <- app_assoc. cbn [app].
    destruct (hex4_value_hex4 _ rest Hlo) as (a' & b' & c' & d' & -> & Hv').
    match goal with
    | |- context [hex4 ?n ++ ?t] =>
        destruct (hex4_value_hex4 n t Hhi) as (a & b & c0 & d & -> & Hv)
    end.
    rewrite (read_chars_pair _ _ _ _ _ _ _ _ _ _ rest Hv Hhigh Hv' Hlow), IH.
    cbn [mbind option_bind]. now rewrite Hsum.
Qed.

(** The body of an encoded string is read back as the string. *)
Lemma read_chars_encoded (l r : str) :
  Forall (fun c => scalar c = true) l →
  read_chars (flat_map escape_char l ++ 34 :: r) = Some (l, r).
Proof.
  induction 1 as [| c l Hc _ IH]; [reflexivity |].
  cbn [flat_map]. rewrite <- app_assoc. now apply read_chars_escape.
Qed.

Lemma expect_eq (p s r : str) : s = p ++ r → expect p s = Some r.
Proof. intros ->. apply expect_app. Qed.

Lemma encoded_app (l t : str) :
  encode_basestring_ascii l ++ t = 34 :: flat_map escape_char l ++ 34 :: t.
Proof.
  unfold encode_basestring_ascii. cbn [app]. now rewrite <- app_assoc.
Qed.

(** The text of one record, cut where the reader cuts it. *)
Lemma dumps_span_record (e : Span) (r : str) :
  dumps (span_record e) ++ r
  = (lit "{" ++ encode_basestring_ascii (lit "start") ++ lit ": ") ++
    int_repr (start_char e) ++
    44 :: (32 :: encode_basestring_ascii (lit "end") ++ lit ": ") ++
    int_repr (end_char e) ++
    44 :: (32 :: encode_basestring_ascii (lit "label") ++ lit ": ") ++
    encode_basestring_ascii (label_ e) ++ lit "}" ++ r.
Proof.
  cbn [dumps span_record map join]. change (lit ", ") with [44; 32].
  repeat (rewrite <- ?app_assoc; cbn [app]; f_equal).
Qed.

Lemma read_span_dumps (e : Span) (r : str) :
  Forall (fun c => scalar c = true) (label_ e) →
  read_span (dumps (span_record e) ++ r) = Some (e, r).
Proof.
  intros Hl. rewrite dumps_span_record, (encoded_app (label_ e)).
  unfold read_span.
  rewrite expect_app. cbn [mbind option_bind].
  rewrite read_int_repr. cbn [mbind option_bind].
  rewrite (expect_eq _ _ (int_repr (end_char e) ++
    44 :: (32 :: encode_basestring_ascii (lit "label") ++ lit ": ") ++
    34 :: flat_map escape_char (label_ e) ++ 34 :: lit "}" ++ r))
    by reflexivity.
  cbn [mbind option_bind].
  rewrite read_int_repr. cbn [mbind option_bind].
  rewrite (expect_eq _ _
    (34 :: flat_map escape_char (label_ e) ++ 34 :: lit "}" ++ r))
    by reflexivity.
  cbn [mbind option_bind].
  rewrite (expect_eq [34] _
    (flat_map escape_char (label_ e) ++ 34 :: lit "}" ++ r)) by reflexivity.
  cbn [mbind option_bind].
  rewrite read_chars_encoded by exact Hl. cbn [mbind option_bind].
  rewrite expect_app. cbn [mbind option_bind]. now destruct e.
Qed.

Lemma record_text_head (e : Span) (r : str) :
  ∃ t, record_text e ++ r = 123 :: t.
Proof. unfold record_text. cbn [dumps]. eexists. reflexivity. Qed.

Lemma record_text_length (e : Span) : (1 ≤ length (record_text e))%nat.
Proof.
  destruct (record_text_head e []) as [t Ht]. rewrite app_nil_r in Ht.
  rewrite Ht. simpl. lia.
Qed.

Lemma join_cons2 (sep p q : str) (ps : list str) :
  join sep (p :: q :: ps) = p ++ sep ++ join sep (q :: ps).
Proof. reflexivity. Qed.

Lemma join_records_length (spans : list Span) :
  (length spans ≤ length (join (lit ", ") (map record_text spans)))%nat.
Proof.
  induction spans as [| e [| e' spans] IH]; [simpl; lia | |].
  - pose proof (record_text_length e). cbn [map join length]. lia.
  - pose proof (record_text_length e).
    cbn [map]. rewrite join_cons2, !length_app.
    cbn [map length] in IH |- *. lia.
Qed.

(** A list of records that is not empty is read back up to its bracket. *)
Lemma read_spans_join (fuel : nat) (e : Span) (es : list Span) (r : str) :
  Forall (fun e => Forall (fun c => scalar c = true) (label_ e)) (e :: es) →
  (length (e :: es) ≤ fuel)%nat →
  read_spans fuel
    (join (lit ", ") (map record_text (e :: es)) ++ lit "]" ++ r)
  = Some (e :: es, r).
Proof.
  revert fuel e. induction es as [| e' es IH]; intros fuel e Hl Hfuel;
    (destruct fuel as [| fuel]; [simpl in Hfuel; lia |]);
    apply Forall_cons in Hl as [He Hl].
  - cbn [map join read_spans]. unfold record_text.
    rewrite read_span_dumps by exact He. cbn [mbind option_bind].
    rewrite expect_app. reflexivity.
  - cbn [map]. rewrite join_cons2, <- !app_assoc. cbn [read_spans].
    unfold record_text at 1.
    rewrite read_span_dumps by exact He. cbn [mbind option_bind].
    rewrite expect_app. specialize (IH fuel e' Hl).
    cbn [map] in IH. rewrite IH; [reflexivity |]. simpl in *. lia.
Qed.

Lemma loads_ents_dumps (spans : list Span) :
  Forall (fun e => Forall (fun c => scalar c = true) (label_ e)) spans →
  loads_ents
    (lit "{" ++ encode_basestring_ascii (lit "ents") ++ lit ": [" ++
     join (lit ", ") (map record_text spans) ++ lit "]}")
  = Some spans.
Proof.
  intros Hl. unfold loads_ents.
  rewrite (expect_eq _ _
             (join (lit ", ") (map record_text spans) ++ lit "]}"))
    by now rewrite <- !app_assoc.
  cbn [mbind option_bind].
  destruct spans as [| e es]; [reflexivity |].
  assert (expect (lit "]")
            (join (lit ", ") (map record_text (e :: es)) ++ lit "]}") = None)
    as ->.
  { destruct es as [| e' es].
    - cbn [map join]. destruct (record_text_head e (lit "]}")) as [t ->].
      reflexivity.
    - cbn [map]. rewrite join_cons2, <- app_assoc.
      match goal with
      | |- context [record_text e ++ ?x] =>
          destruct (record_text_head e x) as [t ->]
      end.
      reflexivity. }
  change (lit "]}") with (lit "]" ++ lit "}").
  rewrite read_spans_join; [| exact Hl |].
  - cbn [mbind option_bind]. now destruct (decide (lit "}" = lit "}")).
  - rewrite length_app. pose proof (join_records_length (e :: es)). lia.
Qed.

End Reader.

(** C2: for an annotated document, the exported mapping has the single
    key ["ents"], and its value is the sequence of the entity records of
    the document, one per entity and in the same order.  The entities are
    read back unchanged from the mapping, and also from the text that
    [json.dumps] makes of it when the labels are Unicode text. *)
Theorem exported_ents_match `{Library} (document : Doc) :
  to_json_lists_ents →
  Forall (fun e => Forall (fun c => Json.scalar c = true) (label_ e))
         (ents document) →
  Json.keys (ents_dict (to_json document)) = [lit "ents"] ∧
  ents_dict (to_json document)
  = [(lit "ents", Json.JList (map Json.span_record (ents document)))] ∧
  (∃ v, Json.get (lit "ents") (ents_dict (to_json document)) = Some v ∧
        Json.records_spans v = Some (ents document)) ∧
  export_json document
  = lit "{" ++ Json.encode_basestring_ascii (lit "ents") ++ lit ": [" ++
    join (lit ", ") (map Json.record_text (ents document)) ++ lit "]}" ∧
  Json.loads_ents (export_json document) = Some (ents document).
Proof.
  intros Hjson Hlabels. pose proof (ents_dict_to_json document Hjson) as E.
  assert (export_json document
          = lit "{" ++ Json.encode_basestring_ascii (lit "ents") ++
            lit ": [" ++
            join (lit ", ") (map Json.record_text (ents document)) ++ lit "]}")
    as Etext.
  { unfold export_json. rewrite E. cbn [Json.dumps map join].
    change (lit "{") with [123]. change (lit ": [") with [58; 32; 91].
    change (lit ": ") with [58; 32]. change (lit "[") with [91].
    change (lit "]") with [93]. change (lit "}") with [125].
    change (lit "]}") with [93; 125].
    rewrite map_map. change (fun x => Json.dumps (Json.span_record x))
      with Json.record_text.
    cbn [app]. f_equal. rewrite <- !app_assoc. f_equal.
    cbn [app]. do 3 f_equal. rewrite <- app_assoc. reflexivity. }
  rewrite E. repeat split.
  - eexists. split; [reflexivity | apply records_spans_records].
  - exact Etext.
  - rewrite Etext. now apply loads_ents_dumps.
Qed.

(** Witness of C2 on the sample document. *)
Lemma exported_ents_match_witness :
  Json.loads_ents
    (@export_json Sample.full_library
       {| doc_text := lit "Mr Christy of Clapham";
          ents := Sample.spans; user_data := ∅ |})
  = Some Sample.spans.
Proof.
  apply (@exported_ents_match Sample.full_library
           {| doc_text := lit "Mr Christy of Clapham";
              ents := Sample.spans; user_data := ∅ |}).
  - apply sample_to_json_lists_ents.
  - cbn [ents Sample.spans]. repeat constructor.
Defined.

(** * Further properties of the script *)

(** ** The cleaning step *)

(** X1: every replaced ampersand makes the text two characters longer:
    the length of the cleaned transcription is the length of the
    transcription plus twice the number of occurrences of ["& "].  The
    offsets of the entities index the cleaned text. *)
Theorem normalize_length (s : str) :
  length (normalize s) = (length s + 2 * occurrences (lit "& ") s)%nat.
Proof.
  rewrite lit_amp_space.
  induction s as [| t IH | c t Hc IH] using scan_ind.
  - reflexivity.
  - rewrite normalize_hit, length_app, IH. cbn [occurrences length].
    change (starts_with [amp; space] (amp :: space :: t)) with true.
    change (starts_with [amp; space] (space :: t)) with false.
    change (length (lit "and ")) with 4%nat. cbv iota. lia.
  - rewrite normalize_keep by assumption. cbn [occurrences length].
    rewrite IH.
    destruct (starts_with [amp; space] (c :: t)) eqn:E; [| lia].
    apply starts_amp_space in E. tauto.
Qed.

(** X2: the cleaning step leaves a transcription as it is exactly when
    the transcription has no occurrence of ["& "]. *)
Theorem normalize_unchanged_iff (s : str) :
  normalize s = s ↔ contains (lit "& ") s = false.
Proof.
  rewrite lit_amp_space. split.
  - intros E. rewrite <- E. apply normalize_clean.
  - apply normalize_fixed.
Qed.

(** ** The search for the transcription *)

Lemma extract_first_match (letter e : Soup.node) (others : list Soup.node) :
  Soup.find_all (lit "type") (lit "transcription") letter = e :: others →
  extract_transcription letter = Return (Soup.text_content e).
Proof.
  intros Hall. unfold extract_transcription, Soup.find.
  rewrite (find_head_of_filter _ _ _ _ Hall).
  assert (Soup.has_attr (lit "type") (lit "transcription") e = true) as He.
  { assert (In e (List.filter (Soup.has_attr (lit "type") (lit "transcription"))
                             (Soup.descendants letter))) as Hin
      by (unfold Soup.find_all in Hall; rewrite Hall; now left).
    now apply filter_In in Hin. }
  apply has_attr_tag in He as (name & attrs & contents & ->).
  now rewrite text_of_tag.
Qed.

(** X3: when several subtrees carry [type="transcription"], the
    transcription is the text content of the first of them in document
    order; the later ones are not looked at. *)
Theorem first_transcription_extracted (letter e : Soup.node)
    (others : list Soup.node) :
  Soup.find_all (lit "type") (lit "transcription") letter = e :: others →
  extract_transcription letter = Return (Soup.text_content e).
Proof. apply extract_first_match. Qed.

(** Witness of X3: a letter with two transcriptions. *)
Lemma first_transcription_extracted_witness :
  extract_transcription
    (Soup.Tag (lit "[document]") ∅
       [ Sample.transcription_div;
         Soup.Tag (lit "div") {[ lit "type" := lit "transcription" ]}
                  [ Soup.NavigableString (lit "a second hand") ] ])
  = Return (lit "I have & you have").
Proof.
  apply (first_transcription_extracted _ Sample.transcription_div
           [ Soup.Tag (lit "div") {[ lit "type" := lit "transcription" ]}
                      [ Soup.NavigableString (lit "a second hand") ] ]).
  vm_compute. reflexivity.
Defined.

(** X4: the extraction raises [AttributeError] exactly when no subtree
    of the letter carries [type="transcription"]; in every other case it
    returns a text. *)
Theorem extraction_raises_iff (letter : Soup.node) :
  extract_transcription letter = Raise AttributeError ↔
  Soup.find_all (lit "type") (lit "transcription") letter = [].
Proof.
  split; [| apply extract_none].
  destruct (Soup.find_all (lit "type") (lit "transcription") letter)
    as [| e others] eqn:Hall; [reflexivity |].
  rewrite (extract_first_match _ _ _ Hall). discriminate.
Qed.

(** ** The exported dictionary *)

Section ExportedDictionary.

Import Json.

Lemma ents_dict_shape (d : dict) :
  ents_dict d = [] ∨ ∃ v, ents_dict d = [(lit "ents", v)].
Proof.
  unfold ents_dict.
  induction d as [| [k v] d IH] using rev_ind; [now left |].
  rewrite comprehension_snoc. case_bool_decide as Ek; [| exact IH].
  subst k. right. destruct IH as [-> | [v0 ->]]; cbn [set].
  - eauto.
  - destruct (decide (lit "ents" = lit "ents")); [eauto | congruence].
Qed.

Lemma ents_dict_without_ents (d : dict) :
  get (lit "ents") d = None → ents_dict d = [].
Proof.
  unfold ents_dict.
  induction d as [| [k v] d IH] using rev_ind; [reflexivity |].
  rewrite get_app, comprehension_snoc. cbn [get].
  destruct (get (lit "ents") d) as [v0 |]; [discriminate |].
  destruct (decide (k = lit "ents")) as [-> | Hk]; [discriminate |].
  intros _. case_bool_decide; [congruence | now apply IH].
Qed.

End ExportedDictionary.

(** X5: whatever the dictionary form of the document holds, the exported
    dictionary has at most one item and no key other than ["ents"]: the
    text, the tokens and the sentences are never exported. *)
Theorem only_ents_exported (doc_dict : Json.dict) :
  Forall (fun key => key = lit "ents") (Json.keys (ents_dict doc_dict)) ∧
  (length (ents_dict doc_dict) ≤ 1)%nat.
Proof.
  destruct (ents_dict_shape doc_dict) as [-> | [v ->]]; cbn.
  - split; [constructor | lia].
  - split; [repeat constructor | lia].
Qed.

(** X6: when the dictionary form of the document has no key ["ents"]
    (a document without entity annotations), the comprehension does not
    raise: the exported dictionary is empty and its JSON text is [{}]. *)
Theorem no_ents_exports_empty (doc_dict : Json.dict) :
  Json.get (lit "ents") doc_dict = None →
  ents_dict doc_dict = [] ∧
  Json.dumps (Json.JDict (ents_dict doc_dict)) = lit "{}".
Proof.
  intros Hnone. rewrite (ents_dict_without_ents _ Hnone). now split.
Qed.

(** Witness of X6: a dictionary with the text only. *)
Lemma no_ents_exports_empty_witness :
  ents_dict [(lit "text", Json.JStr (lit "Dear Sir"))] = [] ∧
  Json.dumps (Json.JDict (ents_dict [(lit "text", Json.JStr (lit "Dear Sir"))]))
  = lit "{}".
Proof.
  apply (no_ents_exports_empty [(lit "text", Json.JStr (lit "Dear Sir"))]).
  reflexivity.
Defined.

(** X7: filtering an exported dictionary again changes nothing. *)
Theorem ents_dict_idempotent (doc_dict : Json.dict) :
  ents_dict (ents_dict doc_dict) = ents_dict doc_dict.
Proof.
  destruct (ents_dict_shape doc_dict) as [-> | [v ->]]; [reflexivity |].
  unfold ents_dict, Json.comprehension. cbn [fold_left Json.set].
  case_bool_decide; [reflexivity | congruence].
Qed.

(** ** The JSON text *)

Section JsonText.

Import Json.

Lemma value_induction (P : value → Prop) :
  P JNone →
  (∀ b, P (JBool b)) →
  (∀ z, P (JInt z)) →
  (∀ s, P (JStr s)) →
  (∀ items, Forall P items → P (JList items)) →
  (∀ items, Forall (fun kv => P (snd kv)) items → P (JDict items)) →
  ∀ v, P v.
Proof.
  intros HNone HBool HInt HStr HList HDict. fix IH 1.
  intros [| b | z | s | items | items].
  - exact HNone.
  - apply HBool.
  - apply HInt.
  - apply HStr.
  - apply HList. induction items as [| v items IHi]; constructor.
    + apply IH.
    + exact IHi.
  - apply HDict. induction items as [| [k v] items IHi]; constructor.
    + apply IH.
    + exact IHi.
Qed.

Lemma printable_join (sep : str) (parts : list str) :
  forallb printable sep = true →
  Forall (fun p => forallb printable p = true) parts →
  forallb printable (join sep parts) = true.
Proof.
  intros Hsep Hparts. induction Hparts as [| p ps Hp Hps IH]; [reflexivity |].
  destruct ps as [| q ps]; [exact Hp |].
  rewrite join_cons2, !forallb_app, Hp, Hsep, IH. reflexivity.
Qed.

Lemma printable_uint (d : Decimal.uint) :
  forallb printable (uint_digits d) = true.
Proof. induction d; cbn [uint_digits forallb]; try rewrite IHd; reflexivity. Qed.

Lemma printable_int (z : Z) : forallb printable (int_repr z) = true.
Proof.
  unfold int_repr. destruct (Z.to_int z); cbn [forallb];
    now rewrite printable_uint.
Qed.

Lemma printable_hex_digit (x : N) : printable (hex_digit (x mod 16)) = true.
Proof.
  apply (forallb_below (fun d => printable (hex_digit d)) 16);
    [now vm_compute | apply N.mod_lt; discriminate].
Qed.

Lemma printable_u_escape (n : N) : forallb printable (u_escape n) = true.
Proof.
  unfold u_escape, hex4. cbn [forallb].
  now rewrite !printable_hex_digit.
Qed.

Lemma printable_escape_char (c : char) :
  forallb printable (escape_char c) = true.
Proof.
  unfold escape_char.
  repeat match goal with
         | |- context [if ?c =? ?k then _ else _] =>
             destruct (c =? k); [reflexivity |]
         end.
  destruct ((32 <=? c) && (c <=? 126)) eqn:Hp.
  { cbn [forallb]. unfold printable. now rewrite Hp. }
  destruct (c <? 65536).
  - apply printable_u_escape.
  - now rewrite forallb_app, !printable_u_escape.
Qed.

Lemma printable_encoded (s : str) :
  forallb printable (encode_basestring_ascii s) = true.
Proof.
  unfold encode_basestring_ascii. cbn [forallb].
  rewrite forallb_app. cbn [forallb andb].
  change (printable 34) with true. cbn [andb]. rewrite andb_true_r.
  induction s as [| c s IH]; [reflexivity |].
  cbn [flat_map]. now rewrite forallb_app, printable_escape_char, IH.
Qed.

End JsonText.

(** X8: the text that [json.dumps] returns holds printable ASCII
    characters only, whatever characters the strings of the value hold:
    every other character is written as an escape. *)
Theorem dumps_ascii (o : Json.value) :
  forallb Json.printable (Json.dumps o) = true.
Proof.
  induction o as [| b | z | s | items IH | items IH] using value_induction.
  - reflexivity.
  - now destruct b.
  - apply printable_int.
  - apply printable_encoded.
  - cbn [Json.dumps]. rewrite !forallb_app, printable_join;
      [reflexivity | reflexivity |].
    induction IH as [| v items Hv _ IHi]; constructor; assumption.
  - cbn [Json.dumps]. rewrite !forallb_app, printable_join;
      [reflexivity | reflexivity |].
    induction IH as [| [k v] items Hv _ IHi]; constructor; [| assumption].
    cbn [snd] in Hv.
    now rewrite !forallb_app, printable_encoded, Hv.
Qed.

(** ** Runs of the script *)

Section Runs.

Context `{Library}.

Lemma print_entities_trace (document : Doc) (entities : list Span) (w : world) :
  print_entities document entities w
  = (Return tt,
     {| dirs := dirs w; files := files w;
        trace := trace w ++
                 map (fun e => Printed (entity_line document e)) entities |}).
Proof.
  revert w. induction entities as [| e entities IH]; intros w.
  - cbn [print_entities map]. unfold ret. rewrite app_nil_r. now destruct w.
  - cbn [print_entities map]. unfold bind, print. rewrite IH.
    cbn [log dirs files trace]. unfold entity_line.
    now rewrite <- app_assoc.
Qed.

(** The first cells, when the letter is there and has a transcription. *)
Lemma annotate_run (w : world) (file t : str) :
  files w !! input_file = Some file →
  extract_transcription (BeautifulSoup file) = Return t →
  let document := nlp (normalize t) in
  annotate w
  = (Return document,
     {| dirs := dirs w; files := files w;
        trace := trace w ++
                 [Read input_file; Printed t;
                  Printed (Json.int_repr (Z.of_nat (length t)))] ++
                 map (fun e => Printed (entity_line document e))
                     (ents document) |}).
Proof.
  intros Hfile Ht document. unfold annotate, bind, open_read, lift, print.
  rewrite Hfile, Ht. fold document. rewrite print_entities_trace.
  unfold ret. cbn [log dirs files trace].
  now rewrite <- !app_assoc.
Qed.

Lemma annotate_no_file (w : world) :
  files w !! input_file = None → annotate w = (Raise FileNotFoundError, w).
Proof. intros Hnone. unfold annotate, bind, open_read. now rewrite Hnone. Qed.

End Runs.

(** X9: when the letter is not at its path, the script ends at once with
    [FileNotFoundError]: nothing has been read, printed or written. *)
Theorem missing_letter_uncaught `{Library} (w : world) :
  files w !! input_file = None →
  script w = (Raise FileNotFoundError, w).
Proof.
  intros Hnone. unfold script, bind. now rewrite (annotate_no_file w Hnone).
Qed.

(** Witness of X9: a world without any file. *)
Lemma missing_letter_uncaught_witness :
  @script Sample.full_library
    {| dirs := {[ lit "../results" ]}; files := ∅; trace := [] |}
  = (Raise FileNotFoundError,
     {| dirs := {[ lit "../results" ]}; files := ∅; trace := [] |}).
Proof.
  apply (@missing_letter_uncaught Sample.full_library).
  reflexivity.
Defined.

(** X10: the pipeline is given the cleaned transcription: in every run
    that reaches the annotated document, the document is what the
    pipeline returns for a text without any occurrence of ["& "]. *)
Theorem pipeline_gets_clean_text `{Library} (w w' : world) (document : Doc) :
  annotate w = (Return document, w') →
  ∃ file t,
    files w !! input_file = Some file ∧
    extract_transcription (BeautifulSoup file) = Return t ∧
    document = nlp (normalize t) ∧
    contains (lit "& ") (normalize t) = false.
Proof.
  intros Hrun.
  destruct (files w !! input_file) as [file |] eqn:Hfile;
    [| rewrite (annotate_no_file w Hfile) in Hrun; discriminate].
  destruct (extract_transcription (BeautifulSoup file)) as [t | e] eqn:Ht.
  - rewrite (annotate_run w file t Hfile Ht) in Hrun.
    injection Hrun as <- _. exists file, t.
    repeat split; [exact Ht | apply normalize_clean].
  - unfold annotate, bind, open_read, lift in Hrun.
    rewrite Hfile, Ht in Hrun. discriminate.
Qed.

(** Witness of X10 on the sample letter. *)
Lemma pipeline_gets_clean_text_witness :
  ∃ file t,
    files Sample.world0 !! input_file = Some file ∧
    extract_transcription (@BeautifulSoup Sample.full_library file)
    = Return t ∧
    @nlp Sample.full_library (lit "I have and you have")
    = @nlp Sample.full_library (normalize t) ∧
    contains (lit "& ") (normalize t) = false.
Proof.
  apply (@pipeline_gets_clean_text Sample.full_library Sample.world0
           (snd (@annotate Sample.full_library Sample.world0))).
  vm_compute. reflexivity.
Defined.

Section WholeRuns.

Context `{Library}.


Lemma script_no_directory (w : world) (file t : str) :
  files w !! input_file = Some file →
  extract_transcription (BeautifulSoup file) = Return t →
  parent output_file ∉ dirs w →
  let document := nlp (normalize t) in
  script w
  = (Raise FileNotFoundError,
     {| dirs := dirs w; files := files w;
        trace := trace w ++
                 [Read input_file; Printed t;
                  Printed (Json.int_repr (Z.of_nat (length t)))] ++
                 map (fun e => Printed (entity_line document e))
                     (ents document) |}).
Proof.
  intros Hfile Ht Hdir document. unfold script, bind.
  rewrite (annotate_run w file t Hfile Ht). fold document.
  now rewrite export_html_refused by exact Hdir.
Qed.

End WholeRuns.





(** X13: the script completes only if the letter is at its path, some
    subtree of it carries [type="transcription"], and the directory of
    the output file exists.  The three conditions are necessary; they
    are not claimed to be enough, since the libraries may raise too. *)
Theorem script_completes_only_if `{Library} (w w' : world) :
  script w = (Return tt, w') →
  ∃ file,
    files w !! input_file = Some file ∧
    Soup.find_all (lit "type") (lit "transcription") (BeautifulSoup file) ≠ [] ∧
    parent output_file ∈ dirs w.
Proof.
  intros Hrun.
  destruct (files w !! input_file) as [file |] eqn:Hfile.
  - exists file. split; [reflexivity |].
    destruct (extract_transcription (BeautifulSoup file)) as [t | e] eqn:Ht.
    + split.
      * intros Hnone. rewrite (extract_none _ Hnone) in Ht. discriminate.
      * destruct (decide (parent output_file ∈ dirs w)) as [Hd | Hd];
          [exact Hd |].
        rewrite (script_no_directory w file t Hfile Ht Hd) in Hrun.
        discriminate.
    + unfold script, annotate, bind, open_read, lift in Hrun.
      rewrite Hfile, Ht in Hrun. discriminate.
  - unfold script, bind in Hrun.
    rewrite (annotate_no_file w Hfile) in Hrun. discriminate.
Qed.

(** Witness of X13: the sample run completes. *)
Lemma script_completes_only_if_witness :
  ∃ file,
    files Sample.world0 !! input_file = Some file ∧
    Soup.find_all (lit "type") (lit "transcription")
      (@BeautifulSoup Sample.full_library file) ≠ [] ∧
    parent output_file ∈ dirs Sample.world0.
Proof.
  apply (@script_completes_only_if Sample.full_library Sample.world0
           (snd (@script Sample.full_library Sample.world0))).
  vm_compute. reflexivity.
Defined.

(** ** The order of the entities on their way to the exporters *)





